(** * Shallow embedding of [code/part-one/signing.js]

    The module is four thin functions over two external collaborators:
    Node's [crypto] ([randomBytes], [createHash('sha256')]) and the
    [secp256k1] npm package ([privateKeyVerify], [publicKeyCreate], [sign],
    [verify]).  What the module itself does is the plumbing between them:
    Node's hex codec ([Buffer.from(s, 'hex')], [buf.toString('hex')]), the
    UTF-8 encoding of a JS string handed to [hash.update], and the
    rejection-sampling loop of [createPrivateKey].  Those are modelled
    exactly; the curve arithmetic and SHA-256 are kept abstract behind the
    contract the library documents ([secp256k1_contract] below).  A
    reference implementation of the library ([Reference]) runs the module
    on concrete inputs. *)

From Stdlib Require Import String Ascii ZArith List Bool Lia.
From Stdlib Require Strings.Byte.
From Bignums Require Import BigZ.BigZ.
Import ListNotations.
Open Scope Z_scope.

Local Abbreviation byte := Byte.byte (only parsing).

(** ** Bytes *)

Definition byte_of_Z (z : Z) : byte :=
  match Byte.of_N (Z.to_N z) with Some b => b | None => Byte.x00 end.

Definition Z_of_byte (b : byte) : Z := Z.of_N (Byte.to_N b).

(** Big-endian value of a buffer, as libsecp256k1 reads a 32-byte scalar. *)
Definition be_value (bs : list byte) : Z :=
  fold_left (fun acc b => acc * 256 + Z_of_byte b) bs 0.

(** ** Node's hex codec *)

(** [unhex] of Node's [string_bytes.cc]: the value of a hex digit, either
    case. *)
Definition unhex (c : ascii) : option Z :=
  let n := Z.of_nat (nat_of_ascii c) in
  if (48 <=? n) && (n <=? 57) then Some (n - 48)
  else if (97 <=? n) && (n <=? 102) then Some (n - 87)
  else if (65 <=? n) && (n <=? 70) then Some (n - 55)
  else None.

(** [Buffer.from(s, 'hex')]: decode pairs of digits from the left, stop at
    the first pair that holds a non-hex character, and drop an odd final
    digit.  It never throws.  Hex arguments are modelled as one-byte
    (Latin-1) strings, i.e. Rocq strings. *)
Fixpoint hex_decode (s : string) : list byte :=
  match s with
  | String a (String b rest) =>
      match unhex a, unhex b with
      | Some x, Some y => byte_of_Z (x * 16 + y) :: hex_decode rest
      | _, _ => []
      end
  | _ => []
  end.

Definition hex_digit (n : Z) : ascii :=
  ascii_of_nat (Z.to_nat (if n <? 10 then 48 + n else 87 + n)).

(** [buf.toString('hex')]: two lowercase digits per byte. *)
Fixpoint hex_encode (bs : list byte) : string :=
  match bs with
  | [] => EmptyString
  | b :: rest =>
      let v := Z_of_byte b in
      String (hex_digit (v / 16)) (String (hex_digit (v mod 16)) (hex_encode rest))
  end.

Definition is_lower_hex_char (c : ascii) : bool :=
  let n := Z.of_nat (nat_of_ascii c) in
  ((48 <=? n) && (n <=? 57)) || ((97 <=? n) && (n <=? 102)).

Fixpoint is_lower_hex (s : string) : bool :=
  match s with
  | EmptyString => true
  | String c rest => is_lower_hex_char c && is_lower_hex rest
  end.

Fixpoint is_hex (s : string) : bool :=
  match s with
  | EmptyString => true
  | String c rest => match unhex c with Some _ => is_hex rest | None => false end
  end.

(** Strict hex decoding (even length, every character a hex digit), the
    reading of "decodes from hex" used by the spec's error contract; the
    code itself never calls it. *)
Definition hex_decode_strict (s : string) : option (list byte) :=
  if is_hex s && Nat.even (String.length s) then Some (hex_decode s) else None.

(** ** JS strings and [hash.update(message)] *)

(** A JS string is a list of UTF-16 code units. *)
Definition jsstring := list Z.

Definition js (s : string) : jsstring :=
  map (fun a => Z.of_nat (nat_of_ascii a)) (list_ascii_of_string s).

Definition is_high_surrogate (c : Z) : bool := (55296 <=? c) && (c <=? 56319).
Definition is_low_surrogate (c : Z) : bool := (56320 <=? c) && (c <=? 57343).

(** U+FFFD, which Node writes for a lone surrogate. *)
Definition replacement_char : list byte := [Byte.xef; Byte.xbf; Byte.xbd].

Definition utf8_3 (c : Z) : list byte :=
  [byte_of_Z (Z.lor 224 (Z.shiftr c 12));
   byte_of_Z (Z.lor 128 (Z.land (Z.shiftr c 6) 63));
   byte_of_Z (Z.lor 128 (Z.land c 63))].

Definition utf8_4 (cp : Z) : list byte :=
  [byte_of_Z (Z.lor 240 (Z.shiftr cp 18));
   byte_of_Z (Z.lor 128 (Z.land (Z.shiftr cp 12) 63));
   byte_of_Z (Z.lor 128 (Z.land (Z.shiftr cp 6) 63));
   byte_of_Z (Z.lor 128 (Z.land cp 63))].

(** The default ['utf8'] encoding of a string passed to [hash.update]
    (V8's [WriteUtf8] with invalid sequences replaced). *)
Fixpoint utf8_encode (s : jsstring) : list byte :=
  match s with
  | [] => []
  | c :: rest =>
      if c <? 128 then byte_of_Z c :: utf8_encode rest
      else if c <? 2048 then
        byte_of_Z (Z.lor 192 (Z.shiftr c 6)) :: byte_of_Z (Z.lor 128 (Z.land c 63))
          :: utf8_encode rest
      else if is_high_surrogate c then
        match rest with
        | d :: rest' =>
            if is_low_surrogate d then
              utf8_4 (65536 + Z.shiftl (c - 55296) 10 + (d - 56320)) ++ utf8_encode rest'
            else replacement_char ++ utf8_encode rest
        | [] => replacement_char
        end
      else if is_low_surrogate c then replacement_char ++ utf8_encode rest
      else utf8_3 c ++ utf8_encode rest
  end.

(** ** Errors: a thrown JS exception *)

Record js_error := mk_error { error_name : string; error_message : string }.

Inductive result (A : Type) : Type :=
| Ok (a : A)
| Throw (e : js_error).
Arguments Ok {A} a.
Arguments Throw {A} e.

Definition bind {A B} (r : result A) (k : A -> result B) : result B :=
  match r with Ok a => k a | Throw e => Throw e end.

Notation "'let*' x := c 'in' k" := (bind c (fun x => k))
  (at level 200, x name, c at level 100, k at level 200).

(** ** The secp256k1 package *)

(** Order of the secp256k1 group. *)
Definition secp256k1_n : Z :=
  0xFFFFFFFFFFFFFFFFFFFFFFFFFFFFFFFEBAAEDCE6AF48A03BBFD25E8CD0364141.

(** [secp256k1.privateKeyVerify]: 32 bytes, nonzero and below the order. *)
Definition privateKeyVerify (privateKey : list byte) : bool :=
  (length privateKey =? 32)%nat && (0 <? be_value privateKey)
  && (be_value privateKey <? secp256k1_n).

(** What [secp256k1.sign] returns. *)
Record sign_output := mk_sign_output { signature : list byte; recovery : Z }.

(** The primitives the module calls: [createHash('sha256')] and the three
    curve operations of the package (default options: compressed keys, the
    package's default nonce function). *)
Record primitives := mk_primitives {
  sha256 : list byte -> list byte;
  publicKeyCreate : list byte -> result (list byte);
  ecdsa_sign : list byte -> list byte -> result sign_output;
  ecdsa_verify : list byte -> list byte -> list byte -> result bool
}.

(** The package's documented behaviour, as far as the module relies on it. *)
Record secp256k1_contract (P : primitives) : Prop := {
  sha256_length : forall bs, length (sha256 P bs) = 32%nat;
  publicKeyCreate_valid : forall sk, privateKeyVerify sk = true ->
    exists pk, publicKeyCreate P sk = Ok pk /\ length pk = 33%nat /\
      (hd Byte.x00 pk = Byte.x02 \/ hd Byte.x00 pk = Byte.x03);
  publicKeyCreate_invalid : forall sk, privateKeyVerify sk = false ->
    exists e, publicKeyCreate P sk = Throw e;
  sign_valid : forall h sk, length h = 32%nat -> privateKeyVerify sk = true ->
    exists so, ecdsa_sign P h sk = Ok so /\ length (signature so) = 64%nat;
  sign_invalid : forall h sk,
    length h <> 32%nat \/ privateKeyVerify sk = false ->
    exists e, ecdsa_sign P h sk = Throw e;
  verify_message_length : forall h sig pk, length h <> 32%nat ->
    exists e, ecdsa_verify P h sig pk = Throw e;
  verify_signature_length : forall h sig pk, length sig <> 64%nat ->
    exists e, ecdsa_verify P h sig pk = Throw e;
  verify_public_key_length : forall h sig pk,
    length pk <> 33%nat -> length pk <> 65%nat ->
    exists e, ecdsa_verify P h sig pk = Throw e;
  (** signatures it produces parse, and so do the keys it creates *)
  verify_well_formed : forall h h' sk sk' pk so,
    length h' = 32%nat -> publicKeyCreate P sk' = Ok pk -> ecdsa_sign P h sk = Ok so ->
    exists b, ecdsa_verify P h' (signature so) pk = Ok b;
  (** ECDSA correctness *)
  verify_sign : forall h sk pk so,
    length h = 32%nat -> publicKeyCreate P sk = Ok pk -> ecdsa_sign P h sk = Ok so ->
    ecdsa_verify P h (signature so) pk = Ok true
}.

(** ** The module *)

Section Signing.

Variable P : primitives.

(** [createPrivateKey]: [randomBytes(32)] until [privateKeyVerify] accepts.
    The entropy source is the list of buffers the successive [randomBytes]
    calls return; [None] means the loop is still running when that list
    ends. *)
Fixpoint createPrivateKey (draws : list (list byte))
  : option (string * list (list byte)) :=
  match draws with
  | [] => None
  | privKey :: rest =>
      if privateKeyVerify privKey then Some (hex_encode privKey, rest)
      else createPrivateKey rest
  end.

Definition getPublicKey (privateKey : string) : result string :=
  let buffer := hex_decode privateKey in
  let* pubKey := publicKeyCreate P buffer in
  Ok (hex_encode pubKey).

(** [Buffer.from(createHash('sha256').update(message).digest('hex'), 'hex')] *)
Definition message_hash (message : jsstring) : list byte :=
  hex_decode (hex_encode (sha256 P (utf8_encode message))).

Definition sign (privateKey : string) (message : jsstring) : result string :=
  let privateKey' := hex_decode privateKey in
  let hash := message_hash message in
  let* out := ecdsa_sign P hash privateKey' in
  Ok (hex_encode (signature out)).

Definition verify (publicKey : string) (message : jsstring) (signature : string)
  : result bool :=
  let hash := message_hash message in
  let sig := hex_decode signature in
  let pubKey := hex_decode publicKey in
  ecdsa_verify P hash sig pubKey.

End Signing.

(** A valid private key string: 64 hex digits whose bytes pass
    [privateKeyVerify]. *)
Definition valid_private_key (privateKey : string) : bool :=
  (String.length privateKey =? 64)%nat && is_hex privateKey
  && privateKeyVerify (hex_decode privateKey).

(** ** A mock of the primitives

    A transparent stand-in that meets [secp256k1_contract]: the "public key"
    is the private key behind a 0x02 tag and the "signature" is the digest
    followed by the private key.  It only serves to show that the contract
    is satisfiable and to run the theorems on concrete inputs. *)
Module Mock.

Definition err (msg : string) : js_error := mk_error "Error" msg.

Definition sha256 (bs : list byte) : list byte :=
  firstn 32 (bs ++ repeat Byte.x00 32).

Definition publicKeyCreate (privateKey : list byte) : result (list byte) :=
  if privateKeyVerify privateKey then Ok (Byte.x02 :: privateKey)
  else Throw (err "private was invalid, try again").

Definition ecdsa_sign (message privateKey : list byte) : result sign_output :=
  if (length message =? 32)%nat && privateKeyVerify privateKey
  then Ok (mk_sign_output (message ++ privateKey) 0)
  else Throw (err "nonce generation function failed or private key is invalid").

Definition ecdsa_verify (message sig publicKey : list byte) : result bool :=
  if negb (length message =? 32)%nat then Throw (err "message length is invalid")
  else if negb (length sig =? 64)%nat then Throw (err "signature length is invalid")
  else if negb ((length publicKey =? 33)%nat || (length publicKey =? 65)%nat)
  then Throw (err "public key length is invalid")
  else Ok (if list_eq_dec Byte.byte_eq_dec sig (message ++ tl publicKey)
           then true else false).

Definition prims : primitives :=
  mk_primitives sha256 publicKeyCreate ecdsa_sign ecdsa_verify.

End Mock.

(** ** A reference implementation of the primitives

    The functions of the [secp256k1] package (v3, the native binding to
    libsecp256k1) and of Node's SHA-256, written out so that the module can
    be run on concrete inputs: SHA-256 and HMAC-SHA256, libsecp256k1's
    RFC 6979 nonce, the curve in Jacobian coordinates, and
    [publicKeyCreate], [sign] and [verify] with the package's argument
    checks and error messages.  It is checked against published test
    vectors below. *)
Module Reference.

(** SHA-256 (FIPS 180-4) on 32-bit words held in Z. *)
Definition mask32 (x : Z) : Z := Z.land x 4294967295.
Definition rotr (x : Z) (n : Z) : Z :=
  Z.lor (Z.shiftr x n) (mask32 (Z.shiftl x (32 - n))).
Definition bsig0 (x : Z) : Z := Z.lxor (Z.lxor (rotr x 2) (rotr x 13)) (rotr x 22).
Definition bsig1 (x : Z) : Z := Z.lxor (Z.lxor (rotr x 6) (rotr x 11)) (rotr x 25).
Definition ssig0 (x : Z) : Z := Z.lxor (Z.lxor (rotr x 7) (rotr x 18)) (Z.shiftr x 3).
Definition ssig1 (x : Z) : Z := Z.lxor (Z.lxor (rotr x 17) (rotr x 19)) (Z.shiftr x 10).
Definition ch (e f g : Z) : Z := Z.lxor (Z.land e f) (Z.land (Z.lxor e 4294967295) g).
Definition maj (a b c : Z) : Z :=
  Z.lxor (Z.lxor (Z.land a b) (Z.land a c)) (Z.land b c).

(** The constants of FIPS 180-4, 4.2.2 and 5.3.3: the first 32 bits of the
    fractional parts of the cube roots of the first 64 primes, and of the
    square roots of the first 8. *)
Definition is_prime (n : Z) : bool :=
  (2 <=? n) && forallb (fun d => negb (n mod d =? 0))
                 (map Z.of_nat (seq 2 (Z.to_nat n - 2))).

Definition first_primes (k : nat) : list Z :=
  firstn k (filter is_prime (map Z.of_nat (seq 2 400))).

(** The integer cube root, by bisection on [lo^3 <= n < hi^3]. *)
Fixpoint icbrt_search (fuel : nat) (lo hi n : Z) : Z :=
  match fuel with
  | O => lo
  | S fuel' =>
      if hi - lo <=? 1 then lo else
      let m := (lo + hi) / 2 in
      if m * m * m <=? n then icbrt_search fuel' m hi n
      else icbrt_search fuel' lo m n
  end.

Definition frac_cbrt32 (p : Z) : Z := mask32 (icbrt_search 64 0 (2 ^ 40) (p * 2 ^ 96)).
Definition frac_sqrt32 (p : Z) : Z := mask32 (Z.sqrt (p * 2 ^ 64)).

Definition sha_K : list Z := Eval vm_compute in map frac_cbrt32 (first_primes 64).
Definition sha_H0 : list Z := Eval vm_compute in map frac_sqrt32 (first_primes 8).

(** [n] big-endian bytes of [z]. *)
Fixpoint be_bytes (n : nat) (z : Z) : list Byte.byte :=
  match n with
  | O => []
  | S n' => be_bytes n' (Z.shiftr z 8) ++ [byte_of_Z (Z.land z 255)]
  end.

Fixpoint words (fuel : nat) (bs : list Byte.byte) : list Z :=
  match fuel with
  | O => []
  | S fuel' =>
      match bs with
      | a :: b :: c :: d :: rest => be_value [a; b; c; d] :: words fuel' rest
      | _ => []
      end
  end.

Fixpoint blocks (fuel : nat) (bs : list Byte.byte) : list (list Byte.byte) :=
  match fuel with
  | O => []
  | S fuel' =>
      match bs with
      | [] => []
      | _ => firstn 64 bs :: blocks fuel' (skipn 64 bs)
      end
  end.

Definition sha_pad (msg : list Byte.byte) : list Byte.byte :=
  let l := Z.of_nat (length msg) in
  msg ++ [Byte.x80] ++ repeat Byte.x00 (Z.to_nat ((55 - l) mod 64))
      ++ be_bytes 8 (8 * l).

(** The message schedule, most recent word first. *)
Fixpoint schedule (n : nat) (w : list Z) : list Z :=
  match n with
  | O => w
  | S n' =>
      schedule n' (mask32 (ssig1 (nth 1 w 0) + nth 6 w 0 + ssig0 (nth 14 w 0)
                           + nth 15 w 0) :: w)
  end.

Definition sha_round (st : list Z) (kw : Z * Z) : list Z :=
  match st with
  | [a; b; c; d; e; f; g; h] =>
      let t1 := h + bsig1 e + ch e f g + fst kw + snd kw in
      let t2 := bsig0 a + maj a b c in
      [mask32 (t1 + t2); a; b; c; mask32 (d + t1); e; f; g]
  | _ => st
  end.

Definition compress (st : list Z) (block : list Byte.byte) : list Z :=
  let w := rev (schedule 48 (rev (words 16 block))) in
  let st' := fold_left sha_round (combine sha_K w) st in
  map (fun p => mask32 (fst p + snd p)) (combine st st').

Definition sha256 (msg : list Byte.byte) : list Byte.byte :=
  let padded := sha_pad msg in
  flat_map (be_bytes 4) (fold_left compress (blocks (length padded) padded) sha_H0).


Definition xor_byte (k : Z) (b : Byte.byte) : Byte.byte :=
  byte_of_Z (Z.lxor (Z_of_byte b) k).

(** HMAC-SHA256 (RFC 2104) for keys of at most 64 bytes. *)
Definition hmac (key msg : list Byte.byte) : list Byte.byte :=
  let k := key ++ repeat Byte.x00 (64 - length key) in
  sha256 (map (xor_byte 92) k ++ sha256 (map (xor_byte 54) k ++ msg)).

(** libsecp256k1's [nonce_function_rfc6979] with no extra data: the
    HMAC-DRBG seeded with the secret key and the 32-byte message, and its
    output number [counter] (from 0). *)
Definition rfc6979_init (keydata : list Byte.byte) : list Byte.byte * list Byte.byte :=
  let v := repeat Byte.x01 32 in
  let k := repeat Byte.x00 32 in
  let k := hmac k (v ++ [Byte.x00] ++ keydata) in
  let v := hmac k v in
  let k := hmac k (v ++ [Byte.x01] ++ keydata) in
  let v := hmac k v in
  (k, v).

Fixpoint rfc6979_more (counter : nat) (kv : list Byte.byte * list Byte.byte)
  : list Byte.byte :=
  let (k, v) := kv in
  match counter with
  | O => v
  | S c =>
      let k := hmac k (v ++ [Byte.x00]) in
      let v := hmac k v in
      rfc6979_more c (k, hmac k v)
  end.

Definition nonce_rfc6979 (msg32 key32 : list Byte.byte) (counter : nat) : list Byte.byte :=
  let (k, v) := rfc6979_init (key32 ++ msg32) in
  rfc6979_more counter (k, hmac k v).

(** The curve y^2 = x^3 + 7 over F_p, in Jacobian coordinates over bigZ. *)
Local Open Scope bigZ_scope.

Definition fp : bigZ := BigZ.of_Z 0xFFFFFFFFFFFFFFFFFFFFFFFFFFFFFFFFFFFFFFFFFFFFFFFFFFFFFFFEFFFFFC2F%Z.
Definition fn : bigZ := BigZ.of_Z secp256k1_n.
Definition Gx : bigZ := BigZ.of_Z 0x79BE667EF9DCBBAC55A06295CE870B07029BFCDB2DCE28D959F2815B16F81798%Z.
Definition Gy : bigZ := BigZ.of_Z 0x483ADA7726A3C4655DA4FBFC0E1108A8FD17B448A68554199C47D08FFB10D4B8%Z.

Definition md (m a : bigZ) : bigZ := BigZ.modulo a m.

Fixpoint powm (m a : bigZ) (e : positive) : bigZ :=
  match e with
  | xH => md m a
  | xO e' => let t := powm m a e' in md m (t * t)
  | xI e' => let t := powm m a e' in md m (md m (t * t) * a)
  end.

(** Inverse modulo a prime, by Fermat. *)
Definition inv (m a : bigZ) : bigZ :=
  match (BigZ.to_Z m - 2)%Z with Zpos e => powm m a e | _ => 0 end.

Record jpoint := mk_jpoint { jx : bigZ; jy : bigZ; jz : bigZ }.

Definition infinity : jpoint := mk_jpoint 1 1 0.
Definition is_infinity (P : jpoint) : bool := BigZ.eqb (md fp (jz P)) 0.

Definition fmul (a b : bigZ) : bigZ := md fp (a * b).
Definition fsub (a b : bigZ) : bigZ := md fp (a - b).

Definition jdouble (P : jpoint) : jpoint :=
  if is_infinity P || BigZ.eqb (md fp (jy P)) 0 then infinity else
  let A := fmul (jx P) (jx P) in
  let B := fmul (jy P) (jy P) in
  let C := fmul B B in
  let D := md fp (2 * (fsub (fsub (fmul (jx P + B) (jx P + B)) A) C)) in
  let E := md fp (3 * A) in
  let F := fmul E E in
  let X3 := fsub F (2 * D) in
  let Y3 := fsub (fmul E (fsub D X3)) (8 * C) in
  let Z3 := md fp (2 * fmul (jy P) (jz P)) in
  mk_jpoint X3 Y3 Z3.

Definition jadd (P Q : jpoint) : jpoint :=
  if is_infinity P then Q else if is_infinity Q then P else
  let Z1Z1 := fmul (jz P) (jz P) in
  let Z2Z2 := fmul (jz Q) (jz Q) in
  let U1 := fmul (jx P) Z2Z2 in
  let U2 := fmul (jx Q) Z1Z1 in
  let S1 := fmul (jy P) (fmul (jz Q) Z2Z2) in
  let S2 := fmul (jy Q) (fmul (jz P) Z1Z1) in
  if BigZ.eqb U1 U2 then (if BigZ.eqb S1 S2 then jdouble P else infinity) else
  let H := fsub U2 U1 in
  let R := fsub S2 S1 in
  let H2 := fmul H H in
  let H3 := fmul H H2 in
  let U1H2 := fmul U1 H2 in
  let X3 := fsub (fsub (fmul R R) H3) (2 * U1H2) in
  let Y3 := fsub (fmul R (fsub U1H2 X3)) (fmul S1 H3) in
  let Z3 := fmul (fmul (jz P) (jz Q)) H in
  mk_jpoint X3 Y3 Z3.

(** [k * P] by double-and-add along the bits of [k]. *)
Fixpoint jmul_pos (k : positive) (P : jpoint) : jpoint :=
  match k with
  | xH => P
  | xO k' => jdouble (jmul_pos k' P)
  | xI k' => jadd (jdouble (jmul_pos k' P)) P
  end.

Definition jmul (k : Z) (P : jpoint) : jpoint :=
  match k with Zpos k' => jmul_pos k' P | _ => infinity end.

(** Affine coordinates of a finite point. *)
Definition affine (P : jpoint) : option (Z * Z) :=
  if is_infinity P then None else
  let zi := inv fp (jz P) in
  let zi2 := fmul zi zi in
  Some (BigZ.to_Z (fmul (jx P) zi2), BigZ.to_Z (fmul (jy P) (fmul zi2 zi))).

Definition G : jpoint := mk_jpoint Gx Gy 1.

Local Close Scope bigZ_scope.

Definition p_Z : Z := BigZ.to_Z fp.

Definition on_curve (x y : Z) : bool :=
  (x <? p_Z) && (y <? p_Z) && ((y * y - (x * x * x + 7)) mod p_Z =? 0).

Definition serialize_compressed (xy : Z * Z) : list Byte.byte :=
  (if Z.odd (snd xy) then Byte.x03 else Byte.x02) :: be_bytes 32 (fst xy).

(** [secp256k1_eckey_pubkey_parse]: compressed (02/03), uncompressed (04)
    and hybrid (06/07) encodings. *)
Definition pubkey_parse (pk : list Byte.byte) : option (Z * Z) :=
  match pk with
  | tag :: rest =>
      if ((length pk =? 33)%nat && (Byte.eqb tag Byte.x02 || Byte.eqb tag Byte.x03))
      then
        let x := be_value rest in
        if p_Z <=? x then None else
        let y2 := (x * x * x + 7) mod p_Z in
        let y := BigZ.to_Z (powm fp (BigZ.of_Z y2)
                             (Z.to_pos ((p_Z + 1) / 4))) in
        if negb ((y * y - y2) mod p_Z =? 0) then None else
        let y := if Bool.eqb (Z.odd y) (Byte.eqb tag Byte.x03) then y else p_Z - y in
        Some (x, y)
      else if ((length pk =? 65)%nat &&
               (Byte.eqb tag Byte.x04 || Byte.eqb tag Byte.x06 || Byte.eqb tag Byte.x07))
      then
        let x := be_value (firstn 32 rest) in
        let y := be_value (skipn 32 rest) in
        if negb (on_curve x y) then None
        else if (Byte.eqb tag Byte.x06 && Z.odd y) || (Byte.eqb tag Byte.x07 && negb (Z.odd y))
        then None
        else Some (x, y)
      else None
  | [] => None
  end.

Definition err (msg : string) : js_error := mk_error "Error" msg.

(** [secp256k1_ec_pubkey_create] behind [secp256k1.publicKeyCreate]. *)
Definition publicKeyCreate (privateKey : list Byte.byte) : result (list Byte.byte) :=
  if negb (length privateKey =? 32)%nat then Throw (err "private key length is invalid")
  else if negb (privateKeyVerify privateKey) then Throw (err "private was invalid, try again")
  else match affine (jmul (be_value privateKey) G) with
       | Some xy => Ok (serialize_compressed xy)
       | None => Throw (err "private was invalid, try again")
       end.

(** [secp256k1_ecdsa_sig_sign] with nonce [k]: [None] when [r] or [s] is
    zero; otherwise the low-S signature and its recovery id. *)
Definition sig_sign (d m k : Z) : option (Z * Z * Z) :=
  match affine (jmul k G) with
  | None => None
  | Some (x, y) =>
      let r := x mod secp256k1_n in
      let recid := (if secp256k1_n <=? x then 2 else 0) + (if Z.odd y then 1 else 0) in
      let s := BigZ.to_Z (md fn (inv fn (BigZ.of_Z k) *
                                 BigZ.of_Z ((m + r * d) mod secp256k1_n))) in
      if (r =? 0) || (s =? 0) then None else
      if secp256k1_n / 2 <? s then Some (r, secp256k1_n - s, Z.lxor recid 1)
      else Some (r, s, recid)
  end.

(** [secp256k1_ecdsa_sign_recoverable] with the RFC 6979 nonce: try the
    nonces for counters 0, 1, ... until one gives a signature. *)
Fixpoint sign_loop (fuel : nat) (counter : nat) (msg32 key32 : list Byte.byte)
  : option (Z * Z * Z) :=
  match fuel with
  | O => None
  | S fuel' =>
      let k := be_value (nonce_rfc6979 msg32 key32 counter) in
      match (if (0 <? k) && (k <? secp256k1_n)
             then sig_sign (be_value key32) (be_value msg32 mod secp256k1_n) k
             else None) with
      | Some out => Some out
      | None => sign_loop fuel' (S counter) msg32 key32
      end
  end.

Definition ecdsa_sign (message privateKey : list Byte.byte) : result sign_output :=
  if negb (length message =? 32)%nat then Throw (err "message length is invalid")
  else if negb (length privateKey =? 32)%nat then Throw (err "private key length is invalid")
  else if negb (privateKeyVerify privateKey)
  then Throw (err "nonce generation function failed or private key is invalid")
  else match sign_loop 8 0 message privateKey with
       | Some (r, s, recid) => Ok (mk_sign_output (be_bytes 32 r ++ be_bytes 32 s) recid)
       | None => Throw (err "nonce generation function failed or private key is invalid")
       end.

(** [secp256k1_ecdsa_sig_verify]. *)
Definition sig_verify (r s m : Z) (q : Z * Z) : bool :=
  if (r =? 0) || (s =? 0) then false else
  let si := inv fn (BigZ.of_Z s) in
  let u1 := BigZ.to_Z (md fn (si * BigZ.of_Z m)) in
  let u2 := BigZ.to_Z (md fn (si * BigZ.of_Z r)) in
  let Q := mk_jpoint (BigZ.of_Z (fst q)) (BigZ.of_Z (snd q)) 1 in
  match affine (jadd (jmul u1 G) (jmul u2 Q)) with
  | None => false
  | Some (x, _) => x mod secp256k1_n =? r
  end.

(** [secp256k1.verify]: length checks, signature and key parsing (which
    throw), then [secp256k1_ecdsa_verify], which rejects high-S
    signatures. *)
Definition ecdsa_verify (message sig publicKey : list Byte.byte) : result bool :=
  if negb (length message =? 32)%nat then Throw (err "message length is invalid")
  else if negb (length sig =? 64)%nat then Throw (err "signature length is invalid")
  else if negb ((length publicKey =? 33)%nat || (length publicKey =? 65)%nat)
  then Throw (err "public key length is invalid")
  else
    let r := be_value (firstn 32 sig) in
    let s := be_value (skipn 32 sig) in
    if (secp256k1_n <=? r) || (secp256k1_n <=? s)
    then Throw (err "couldn't parse signature")
    else match pubkey_parse publicKey with
         | None => Throw (err "the public key could not be parsed or is invalid")
         | Some q =>
             Ok (negb (secp256k1_n / 2 <? s) &&
                 sig_verify r s (be_value message mod secp256k1_n) q)
         end.

Definition prims : primitives :=
  mk_primitives sha256 publicKeyCreate ecdsa_sign ecdsa_verify.
End Reference.

(** ** Concrete inputs *)

Definition zeros (n : nat) : string :=
  hex_encode (repeat Byte.x00 n).

(** The private key 10 in lowercase and in uppercase hex. *)
Definition key_lower : string := (zeros 31 ++ "0a")%string.
Definition key_upper : string := (zeros 31 ++ "0A")%string.

(** A lone high surrogate and U+FFFD: two different JS strings. *)
Definition lone_surrogate : jsstring := [55296].
Definition replacement_string : jsstring := [65533].

(** ** Codec lemmas *)

Lemma hex_decode_byte (b : byte) (rest : string) :
  hex_decode (hex_encode [b] ++ rest)%string = b :: hex_decode rest.
Proof. destruct b; reflexivity. Qed.

Lemma hex_encode_cons (b : byte) (bs : list byte) :
  hex_encode (b :: bs) = (hex_encode [b] ++ hex_encode bs)%string.
Proof. reflexivity. Qed.

Lemma hex_decode_encode (bs : list byte) : hex_decode (hex_encode bs) = bs.
Proof.
  induction bs as [|b bs IH]; [reflexivity|].
  rewrite hex_encode_cons, hex_decode_byte, IH. reflexivity.
Qed.

Lemma hex_encode_length (bs : list byte) :
  String.length (hex_encode bs) = (2 * length bs)%nat.
Proof. induction bs as [|b bs IH]; simpl; [reflexivity|]. rewrite IH. lia. Qed.

Lemma is_lower_hex_byte (b : byte) : is_lower_hex (hex_encode [b]) = true.
Proof. destruct b; reflexivity. Qed.

Lemma is_lower_hex_app (s t : string) :
  is_lower_hex (s ++ t)%string = is_lower_hex s && is_lower_hex t.
Proof.
  induction s as [|c s IH]; simpl; [reflexivity|].
  rewrite IH. apply andb_assoc.
Qed.

Lemma hex_encode_lower (bs : list byte) : is_lower_hex (hex_encode bs) = true.
Proof.
  induction bs as [|b bs IH]; [reflexivity|].
  rewrite hex_encode_cons, is_lower_hex_app, is_lower_hex_byte, IH. reflexivity.
Qed.

Lemma privateKeyVerify_length (sk : list byte) :
  privateKeyVerify sk = true -> length sk = 32%nat.
Proof.
  unfold privateKeyVerify. intros H.
  apply andb_true_iff in H as [H _]. apply andb_true_iff in H as [H _].
  now apply Nat.eqb_eq.
Qed.

(** The digest [sign] and [verify] hand to the library is the raw SHA-256
    of the message's UTF-8 bytes: the hex round trip is the identity. *)
Lemma message_hash_raw (P : primitives) (message : jsstring) :
  message_hash P message = sha256 P (utf8_encode message).
Proof. unfold message_hash. apply hex_decode_encode. Qed.

Example hex_decode_not_hex : hex_decode "not-hex" = [].
Proof. reflexivity. Qed.

Example hex_decode_trailing : hex_decode (key_lower ++ "zz")%string = hex_decode key_lower.
Proof. vm_compute. reflexivity. Qed.

Example hex_decode_odd : hex_decode "0a1" = [Byte.x0a].
Proof. reflexivity. Qed.

Example hex_encode_example : hex_encode [Byte.x02; Byte.xab] = "02ab"%string.
Proof. reflexivity. Qed.

Example utf8_hello : utf8_encode (js "Hi") = [Byte.x48; Byte.x69].
Proof. reflexivity. Qed.

Example utf8_pair : utf8_encode [55357; 56832] = [Byte.xf0; Byte.x9f; Byte.x98; Byte.x80].
Proof. reflexivity. Qed.

Example utf8_lone_surrogate :
  utf8_encode lone_surrogate = utf8_encode replacement_string.
Proof. reflexivity. Qed.

Example valid_key_lower : valid_private_key key_lower = true.
Proof. vm_compute. reflexivity. Qed.

Example valid_key_upper : valid_private_key key_upper = true.
Proof. vm_compute. reflexivity. Qed.

Lemma string_app_assoc (s t u : string) : ((s ++ t) ++ u)%string = (s ++ (t ++ u))%string.
Proof. induction s as [|c s IH]; simpl; [reflexivity|]. now rewrite IH. Qed.

Lemma hex_decode_encode_app (bs : list byte) (t : string) :
  hex_decode (hex_encode bs ++ t)%string = bs ++ hex_decode t.
Proof.
  induction bs as [|b bs IH]; [reflexivity|].
  rewrite hex_encode_cons, string_app_assoc, hex_decode_byte, IH. reflexivity.
Qed.

Lemma is_hex_app (s t : string) : is_hex (s ++ t)%string = is_hex s && is_hex t.
Proof.
  induction s as [|c s IH]; simpl; [reflexivity|].
  destruct (unhex c); auto.
Qed.

Lemma valid_private_key_verify (privateKey : string) :
  valid_private_key privateKey = true -> privateKeyVerify (hex_decode privateKey) = true.
Proof. unfold valid_private_key. now rewrite !andb_true_iff. Qed.

(** ** The mock meets the contract *)

Lemma mock_contract : secp256k1_contract Mock.prims.
Proof.
  split; unfold Mock.prims, sha256, publicKeyCreate, ecdsa_sign, ecdsa_verify.
  - intros bs. unfold Mock.sha256.
    rewrite length_firstn, length_app, repeat_length. lia.
  - intros sk H. unfold Mock.publicKeyCreate. rewrite H.
    eexists; split; [reflexivity|]. cbn.
    rewrite (privateKeyVerify_length _ H). auto.
  - intros sk H. unfold Mock.publicKeyCreate. rewrite H. eauto.
  - intros h sk Hh H. unfold Mock.ecdsa_sign. rewrite Hh, H. cbn.
    eexists; split; [reflexivity|]. cbn.
    rewrite length_app, Hh, (privateKeyVerify_length _ H). reflexivity.
  - intros h sk [Hh | H]; unfold Mock.ecdsa_sign.
    + apply Nat.eqb_neq in Hh. rewrite Hh. cbn. eauto.
    + rewrite H, andb_false_r. cbn. eauto.
  - intros h sig pk Hh. unfold Mock.ecdsa_verify.
    apply Nat.eqb_neq in Hh. rewrite Hh. cbn. eauto.
  - intros h sig pk Hs. unfold Mock.ecdsa_verify.
    apply Nat.eqb_neq in Hs. rewrite Hs.
    destruct (length h =? 32)%nat; cbn; eauto.
  - intros h sig pk H33 H65. unfold Mock.ecdsa_verify.
    apply Nat.eqb_neq in H33, H65. rewrite H33, H65.
    destruct (length h =? 32)%nat, (length sig =? 64)%nat; cbn; eauto.
  - intros h h' sk sk' pk so Hh' Hpk Hso.
    unfold Mock.publicKeyCreate, Mock.ecdsa_sign, Mock.ecdsa_verify in *.
    destruct (privateKeyVerify sk') eqn:Hk'; [|discriminate].
    destruct ((length h =? 32)%nat && privateKeyVerify sk) eqn:Hk; [|discriminate].
    injection Hpk as <-. injection Hso as <-. cbn.
    apply andb_true_iff in Hk as [Hh Hk]. apply Nat.eqb_eq in Hh.
    rewrite Hh', length_app, Hh, (privateKeyVerify_length _ Hk),
      (privateKeyVerify_length _ Hk'). cbn. eauto.
  - intros h sk pk so Hh Hpk Hso.
    unfold Mock.publicKeyCreate, Mock.ecdsa_sign, Mock.ecdsa_verify in *.
    destruct (privateKeyVerify sk) eqn:Hk; [|discriminate].
    rewrite Hh in Hso. cbn in Hso.
    injection Hpk as <-. injection Hso as <-.
    cbn [signature length tl]. rewrite Hh, length_app, Hh, (privateKeyVerify_length _ Hk).
    destruct (list_eq_dec Byte.byte_eq_dec (h ++ sk) (h ++ sk)) as [_|n];
      [reflexivity | exfalso; apply n; reflexivity].
Qed.

(** ** The module's operations under the contract *)

(** [verify(getPublicKey(verifier), message', sign(signer, message))], with
    JS's left-to-right evaluation of the arguments. *)
Definition verify_signed (P : primitives) (signer verifier : string)
  (message message' : jsstring) : result bool :=
  let* publicKey := getPublicKey P verifier in
  let* sig := sign P signer message in
  verify P publicKey message' sig.

Section Contract.

Variable P : primitives.
Hypothesis HP : secp256k1_contract P.

Lemma getPublicKey_ok (privateKey : string) :
  privateKeyVerify (hex_decode privateKey) = true ->
  exists pk, publicKeyCreate P (hex_decode privateKey) = Ok pk /\
    getPublicKey P privateKey = Ok (hex_encode pk) /\ length pk = 33%nat /\
    (hd Byte.x00 pk = Byte.x02 \/ hd Byte.x00 pk = Byte.x03).
Proof.
  intros Hk. destruct (publicKeyCreate_valid P HP _ Hk) as (pk & Hpk & Hlen & Hhd).
  exists pk. unfold getPublicKey. rewrite Hpk. auto.
Qed.

Lemma sign_ok (privateKey : string) (message : jsstring) :
  privateKeyVerify (hex_decode privateKey) = true ->
  exists so, ecdsa_sign P (sha256 P (utf8_encode message)) (hex_decode privateKey) = Ok so /\
    sign P privateKey message = Ok (hex_encode (signature so)) /\
    length (signature so) = 64%nat.
Proof.
  intros Hk.
  destruct (sign_valid P HP (sha256 P (utf8_encode message)) _
              (sha256_length P HP _) Hk) as (so & Hso & Hlen).
  exists so. unfold sign. rewrite message_hash_raw, Hso. auto.
Qed.

Lemma verify_encoded (pk sig : list byte) (message : jsstring) :
  verify P (hex_encode pk) message (hex_encode sig)
  = ecdsa_verify P (sha256 P (utf8_encode message)) sig pk.
Proof. unfold verify. now rewrite message_hash_raw, !hex_decode_encode. Qed.

(** Cross verification returns a boolean, and [true] when signer and
    verifier decode to the same key and the two messages to the same
    bytes. *)
Lemma verify_signed_result (signer verifier : string) (message message' : jsstring) :
  privateKeyVerify (hex_decode signer) = true ->
  privateKeyVerify (hex_decode verifier) = true ->
  exists b, verify_signed P signer verifier message message' = Ok b /\
    (hex_decode signer = hex_decode verifier ->
     utf8_encode message = utf8_encode message' -> b = true).
Proof.
  intros Hs Hv.
  destruct (getPublicKey_ok verifier Hv) as (pk & Hpk & Hget & _).
  destruct (sign_ok signer message Hs) as (so & Hso & Hsign & _).
  destruct (verify_well_formed P HP _ (sha256 P (utf8_encode message')) _ _ _ _
              (sha256_length P HP _) Hpk Hso) as [b Hb].
  exists b. unfold verify_signed. rewrite Hget, Hsign. cbn.
  rewrite verify_encoded, Hb. split; [reflexivity|].
  intros Hkey Hmsg. rewrite Hkey in Hso. rewrite Hmsg in Hso.
  rewrite (verify_sign P HP _ _ _ _ (sha256_length P HP _) Hpk Hso) in Hb.
  congruence.
Qed.

End Contract.

(** The message of the source's examples. *)
Definition hello : jsstring := js "Hello World!".

(** The private key 10 as bytes. *)
Definition key_bytes : list byte := repeat Byte.x00 31 ++ [Byte.x0a].

(** A second private key.  [key_lower] (the scalar 10) signs the digest h
    of [hello] with first half r; this key is the scalar
    (-10 - 2 h r^-1) mod n (lemma [key_forged_formula]).  For its public
    key Q', s^-1 h G + s^-1 r Q' = -(s^-1 (h + 10 r)) G, the negation of
    the nonce point, which has the same x coordinate. *)
Definition key_forged : string :=
  "7c621542e39fdaaedd127e086db8cb94f21af2277518563ef402ba23810ccb65".

(** The signature of [hello] by [key_lower] under the reference
    implementation. *)
Definition signature_or_empty (out : result sign_output) : list byte :=
  match out with
  | Ok out => signature out
  | Throw _ => []
  end.

Definition hello_signature : list byte :=
  signature_or_empty
    (Reference.ecdsa_sign (message_hash Reference.prims hello) (hex_decode key_lower)).

(** ** The reference implementation against published test vectors *)

Example reference_sha256_empty :
  hex_encode (Reference.sha256 []) =
  "e3b0c44298fc1c149afbf4c8996fb92427ae41e4649b934ca495991b7852b855"%string.
Proof. vm_compute. reflexivity. Qed.

Example reference_sha256_abc :
  hex_encode (Reference.sha256 (utf8_encode (js "abc"))) =
  "ba7816bf8f01cfea414140de5dae2223b00361a396177a9cb410ff61f20015ad"%string.
Proof. vm_compute. reflexivity. Qed.

Example reference_sha256_two_blocks :
  hex_encode (Reference.sha256 (utf8_encode
    (js "abcdbcdecdefdefgefghfghighijhijkijkljklmklmnlmnomnopnopq"))) =
  "248d6a61d20638b8e5c026930c3e6039a33ce45964ff2167f6ecedd419db06c1"%string.
Proof. vm_compute. reflexivity. Qed.

(** RFC 4231, test case 2. *)
Example reference_hmac :
  hex_encode (Reference.hmac (utf8_encode (js "Jefe"))
                (utf8_encode (js "what do ya want for nothing?"))) =
  "5bdcc146bf60754e6a042426089575c75a003f089d2739839dec58b964ec3843"%string.
Proof. vm_compute. reflexivity. Qed.

(** The public keys of the scalars 1, 2 and 3: G, 2G and 3G. *)
Example reference_public_keys :
  Reference.publicKeyCreate (Reference.be_bytes 32 1) =
    Ok (hex_decode "0279BE667EF9DCBBAC55A06295CE870B07029BFCDB2DCE28D959F2815B16F81798") /\
  Reference.publicKeyCreate (Reference.be_bytes 32 2) =
    Ok (hex_decode "02C6047F9441ED7D6D3045406E95C07CD85C778E4B8CEF3CA7ABAC09B95C709EE5") /\
  Reference.publicKeyCreate (Reference.be_bytes 32 3) =
    Ok (hex_decode "02F9308A019258C31049344F85F89D5229B531C845836F99B08601F113BCE036F9").
Proof. vm_compute. repeat split. Qed.

(** G has order n. *)
Example reference_order :
  Reference.affine (Reference.jmul secp256k1_n Reference.G) = None /\
  Reference.affine (Reference.jmul (secp256k1_n - 1) Reference.G) <> None.
Proof. vm_compute. split; [reflexivity | discriminate]. Qed.

(** The RFC 6979 secp256k1 vector: the scalar 1 signing the SHA-256 of
    "Satoshi Nakamoto"; the signature verifies. *)
Example reference_rfc6979 :
  let digest := Reference.sha256 (utf8_encode (js "Satoshi Nakamoto")) in
  exists out,
    Reference.ecdsa_sign digest (Reference.be_bytes 32 1) = Ok out /\
    hex_encode (signature out) =
    ("934b1ea10a4b3c1757e2b0c017d0b6143ce3c9a7e6a4a49860d7a6ab210ee3d8"
     ++ "2442ce9d2b916064108014783e923ec36b49743e2ffa1c4496f01a512aafd9e5")%string /\
    Reference.ecdsa_verify digest (signature out)
      (hex_decode "0279BE667EF9DCBBAC55A06295CE870B07029BFCDB2DCE28D959F2815B16F81798")
    = Ok true.
Proof.
  intros digest. eexists. split; [vm_compute; reflexivity|].
  split; vm_compute; reflexivity.
Qed.

(** [key_forged] is the scalar of its description, r^-1 computed by the
    reference's Fermat inverse. *)
Lemma key_forged_formula :
  let h := be_value (message_hash Reference.prims hello) in
  let r := be_value (firstn 32 hello_signature) in
  let r_inv := BigZ.to_Z (Reference.inv Reference.fn (BigZ.of_Z r)) in
  (r * r_inv) mod secp256k1_n = 1 /\
  be_value (hex_decode key_forged) =
    (- be_value (hex_decode key_lower) - 2 * h * r_inv) mod secp256k1_n.
Proof. vm_compute. split; reflexivity. Qed.

(** ** Claims *)

(** C1: for every valid private key and every message,
    [verify(getPublicKey(privateKey), message, sign(privateKey, message))]
    returns [true] (and neither call throws). *)
Theorem verify_sign_roundtrip (P : primitives) (HP : secp256k1_contract P)
  (privateKey : string) (message : jsstring)
  (Hkey : valid_private_key privateKey = true) :
  verify_signed P privateKey privateKey message message = Ok true.
Proof.
  apply valid_private_key_verify in Hkey.
  destruct (verify_signed_result P HP privateKey privateKey message message Hkey Hkey)
    as (b & Hb & Htrue).
  rewrite Hb, Htrue; reflexivity.
Qed.

Lemma verify_sign_roundtrip_witness :
  valid_private_key key_lower = true /\
  verify_signed Mock.prims key_lower key_lower hello hello = Ok true.
Proof.
  split; [vm_compute; reflexivity|].
  apply (verify_sign_roundtrip Mock.prims mock_contract key_lower hello).
  vm_compute. reflexivity.
Defined.

(** C4: whatever [createPrivateKey] returns is 64 lowercase hex digits
    that decode to 32 bytes accepted by [privateKeyVerify] (nonzero and
    below the group order), for every sequence of random draws. *)
Theorem createPrivateKey_valid (draws : list (list byte)) (privateKey : string)
  (rest : list (list byte))
  (Hrun : createPrivateKey draws = Some (privateKey, rest)) :
  String.length privateKey = 64%nat /\ is_lower_hex privateKey = true /\
  length (hex_decode privateKey) = 32%nat /\
  privateKeyVerify (hex_decode privateKey) = true.
Proof.
  induction draws as [|privKey draws IH]; [discriminate|].
  cbn in Hrun. destruct (privateKeyVerify privKey) eqn:Hk; [|auto].
  injection Hrun as <- _.
  rewrite hex_encode_length, hex_encode_lower, hex_decode_encode,
    (privateKeyVerify_length _ Hk), Hk.
  auto.
Qed.

Lemma createPrivateKey_valid_witness :
  createPrivateKey [repeat Byte.x00 32; repeat Byte.xff 32; key_bytes]
    = Some (key_lower, []) /\
  String.length key_lower = 64%nat /\ is_lower_hex key_lower = true /\
  length (hex_decode key_lower) = 32%nat /\
  privateKeyVerify (hex_decode key_lower) = true.
Proof.
  split; [vm_compute; reflexivity|].
  apply (createPrivateKey_valid [repeat Byte.x00 32; repeat Byte.xff 32; key_bytes]
           key_lower []).
  vm_compute. reflexivity.
Defined.

(** C5: for a valid private key, [getPublicKey] returns 66 hex digits
    starting with "02" or "03" (a compressed point). *)
Theorem getPublicKey_compressed (P : primitives) (HP : secp256k1_contract P)
  (privateKey : string) (Hkey : valid_private_key privateKey = true) :
  exists publicKey, getPublicKey P privateKey = Ok publicKey /\
    String.length publicKey = 66%nat /\ is_lower_hex publicKey = true /\
    (String.prefix "02" publicKey = true \/ String.prefix "03" publicKey = true).
Proof.
  apply valid_private_key_verify in Hkey.
  destruct (getPublicKey_ok P HP privateKey Hkey) as (pk & _ & Hget & Hlen & Hhd).
  exists (hex_encode pk). rewrite hex_encode_length, hex_encode_lower, Hlen.
  split; [exact Hget|]. split; [reflexivity|]. split; [reflexivity|].
  destruct pk as [|b [|b' pk]]; [discriminate | discriminate |]. cbn in Hhd.
  destruct Hhd as [-> | ->]; [left | right]; reflexivity.
Qed.

Lemma getPublicKey_compressed_witness :
  valid_private_key key_lower = true /\
  exists publicKey, getPublicKey Mock.prims key_lower = Ok publicKey /\
    String.length publicKey = 66%nat /\ is_lower_hex publicKey = true /\
    (String.prefix "02" publicKey = true \/ String.prefix "03" publicKey = true).
Proof.
  split; [vm_compute; reflexivity|].
  apply (getPublicKey_compressed Mock.prims mock_contract key_lower).
  vm_compute. reflexivity.
Defined.

(** C8: for a valid private key, [sign] hands the library the raw 32-byte
    SHA-256 digest of the message's UTF-8 bytes (not its hex text) and
    returns the 64-byte signature as 128 lowercase hex digits. *)
Theorem sign_raw_digest (P : primitives) (HP : secp256k1_contract P)
  (privateKey : string) (message : jsstring)
  (Hkey : valid_private_key privateKey = true) :
  message_hash P message = sha256 P (utf8_encode message) /\
  length (message_hash P message) = 32%nat /\
  exists out, ecdsa_sign P (sha256 P (utf8_encode message)) (hex_decode privateKey) = Ok out /\
    length (signature out) = 64%nat /\
    sign P privateKey message = Ok (hex_encode (signature out)) /\
    String.length (hex_encode (signature out)) = 128%nat /\
    is_lower_hex (hex_encode (signature out)) = true.
Proof.
  apply valid_private_key_verify in Hkey.
  rewrite message_hash_raw. split; [reflexivity|].
  split; [apply (sha256_length P HP)|].
  destruct (sign_ok P HP privateKey message Hkey) as (so & Hso & Hsign & Hlen).
  exists so. rewrite hex_encode_length, hex_encode_lower, Hlen. auto.
Qed.

Lemma sign_raw_digest_witness :
  valid_private_key key_lower = true /\
  message_hash Mock.prims hello = sha256 Mock.prims (utf8_encode hello) /\
  length (message_hash Mock.prims hello) = 32%nat /\
  exists out,
    ecdsa_sign Mock.prims (sha256 Mock.prims (utf8_encode hello)) (hex_decode key_lower)
      = Ok out /\
    length (signature out) = 64%nat /\
    sign Mock.prims key_lower hello = Ok (hex_encode (signature out)) /\
    String.length (hex_encode (signature out)) = 128%nat /\
    is_lower_hex (hex_encode (signature out)) = true.
Proof.
  split; [vm_compute; reflexivity|].
  apply (sign_raw_digest Mock.prims mock_contract key_lower hello).
  vm_compute. reflexivity.
Defined.

(** C9: [getPublicKey] is deterministic: on a valid private key it returns
    one string, the same on every call (indeed on every argument that
    decodes to the same bytes). *)
Theorem getPublicKey_deterministic (P : primitives) (HP : secp256k1_contract P)
  (privateKey : string) (Hkey : valid_private_key privateKey = true) :
  exists publicKey, getPublicKey P privateKey = Ok publicKey /\
    forall privateKey', hex_decode privateKey' = hex_decode privateKey ->
      getPublicKey P privateKey' = Ok publicKey.
Proof.
  apply valid_private_key_verify in Hkey.
  destruct (getPublicKey_ok P HP privateKey Hkey) as (pk & _ & Hget & _).
  exists (hex_encode pk). split; [exact Hget|].
  intros privateKey' Hdec. rewrite <- Hget. unfold getPublicKey. now rewrite Hdec.
Qed.

Lemma getPublicKey_deterministic_witness :
  valid_private_key key_lower = true /\
  exists publicKey, getPublicKey Mock.prims key_lower = Ok publicKey /\
    forall privateKey', hex_decode privateKey' = hex_decode key_lower ->
      getPublicKey Mock.prims privateKey' = Ok publicKey.
Proof.
  split; [vm_compute; reflexivity|].
  apply (getPublicKey_deterministic Mock.prims mock_contract key_lower).
  vm_compute. reflexivity.
Defined.

(** C10: [sign] is deterministic: it calls the library with its default
    (RFC 6979) nonce function, so on a valid private key and a message it
    returns one signature, the same on every call (indeed for every key
    string and message with the same bytes). *)
Theorem sign_deterministic (P : primitives) (HP : secp256k1_contract P)
  (privateKey : string) (message : jsstring)
  (Hkey : valid_private_key privateKey = true) :
  exists sig, sign P privateKey message = Ok sig /\
    forall privateKey' message',
      hex_decode privateKey' = hex_decode privateKey ->
      utf8_encode message' = utf8_encode message ->
      sign P privateKey' message' = Ok sig.
Proof.
  apply valid_private_key_verify in Hkey.
  destruct (sign_ok P HP privateKey message Hkey) as (so & _ & Hsign & _).
  exists (hex_encode (signature so)). split; [exact Hsign|].
  intros privateKey' message' Hdec Hmsg. rewrite <- Hsign.
  unfold sign, message_hash. now rewrite Hdec, Hmsg.
Qed.

Lemma sign_deterministic_witness :
  valid_private_key key_lower = true /\
  exists sig, sign Mock.prims key_lower hello = Ok sig /\
    forall privateKey' message',
      hex_decode privateKey' = hex_decode key_lower ->
      utf8_encode message' = utf8_encode hello ->
      sign Mock.prims privateKey' message' = Ok sig.
Proof.
  split; [vm_compute; reflexivity|].
  apply (sign_deterministic Mock.prims mock_contract key_lower hello).
  vm_compute. reflexivity.
Defined.

(** ** Counterexamples

    The primitives are known only through their contract, so a claim fails
    at a concrete input when it fails there for every implementation that
    meets the contract (the real package among them; [mock_contract] shows
    there are such implementations). *)
Definition for_conforming (Q : primitives -> Prop) : Prop :=
  forall P, secp256k1_contract P -> Q P.

(** C2 fails: the distinct JS strings "\uD800" (a lone surrogate) and "\uFFFD" have the same
    UTF-8 bytes, so a signature of one verifies for the other. *)
Lemma distinct_messages_counterexample : for_conforming (fun P =>
  valid_private_key key_lower = true /\ lone_surrogate <> replacement_string /\
  verify_signed P key_lower key_lower lone_surrogate replacement_string = Ok true).
Proof.
  intros P HP. split; [vm_compute; reflexivity|]. split; [discriminate|].
  destruct (verify_signed_result P HP key_lower key_lower lone_surrogate
              replacement_string) as (b & Hb & Ht); [vm_compute; reflexivity ..|].
  rewrite Hb, (Ht eq_refl utf8_lone_surrogate). reflexivity.
Qed.

(** C2, as amended: for a valid private key and any two messages,
    [verify(getPublicKey(k), message2, sign(k, message1))] returns a boolean
    (it never throws), and it returns [true] whenever the two messages have
    the same UTF-8 bytes. *)
Theorem verify_other_message (P : primitives) (HP : secp256k1_contract P)
  (privateKey : string) (message1 message2 : jsstring)
  (Hkey : valid_private_key privateKey = true) :
  exists b, verify_signed P privateKey privateKey message1 message2 = Ok b /\
    (utf8_encode message1 = utf8_encode message2 -> b = true).
Proof.
  apply valid_private_key_verify in Hkey.
  destruct (verify_signed_result P HP privateKey privateKey message1 message2 Hkey Hkey)
    as (b & Hb & Ht).
  exists b. split; [exact Hb|]. intros Hmsg. exact (Ht eq_refl Hmsg).
Qed.

Lemma verify_other_message_witness :
  valid_private_key key_lower = true /\
  exists b, verify_signed Mock.prims key_lower key_lower lone_surrogate replacement_string
              = Ok b /\
    (utf8_encode lone_surrogate = utf8_encode replacement_string -> b = true).
Proof.
  split; [vm_compute; reflexivity|].
  apply (verify_other_message Mock.prims mock_contract key_lower).
  vm_compute. reflexivity.
Defined.




(** C6 fails: a valid key followed by the non-hex characters "zz" is not a
    hex string, yet [getPublicKey] returns a public key for it. *)
Lemma getPublicKey_trailing_counterexample : for_conforming (fun P =>
  hex_decode_strict (key_lower ++ "zz") = None /\
  exists publicKey, getPublicKey P (key_lower ++ "zz") = Ok publicKey).
Proof.
  intros P HP. split; [vm_compute; reflexivity|].
  destruct (getPublicKey_ok P HP (key_lower ++ "zz")) as (pk & _ & Hget & _);
    [vm_compute; reflexivity|].
  eauto.
Qed.

(** C6, as amended: [getPublicKey] does no validation of its own.  It
    returns a public key exactly when the leniently decoded bytes pass
    [privateKeyVerify], and otherwise throws the library's error; so
    "not-hex" (which decodes to no bytes) and "00" repeated 32 times (the
    zero scalar) both throw. *)
Theorem getPublicKey_lenient (P : primitives) (HP : secp256k1_contract P)
  (privateKey : string) :
  ((exists publicKey, getPublicKey P privateKey = Ok publicKey) <->
   privateKeyVerify (hex_decode privateKey) = true) /\
  (privateKeyVerify (hex_decode privateKey) = false ->
   exists e, getPublicKey P privateKey = Throw e) /\
  (exists e, getPublicKey P "not-hex" = Throw e) /\
  (exists e, getPublicKey P (zeros 32) = Throw e).
Proof.
  assert (Hthrow : forall s, privateKeyVerify (hex_decode s) = false ->
                        exists e, getPublicKey P s = Throw e).
  { intros s Hk. destruct (publicKeyCreate_invalid P HP _ Hk) as [e He].
    exists e. unfold getPublicKey. now rewrite He. }
  split; [split|].
  - intros [publicKey Hget].
    destruct (privateKeyVerify (hex_decode privateKey)) eqn:Hk; [reflexivity|].
    destruct (Hthrow _ Hk) as [e He]. congruence.
  - intros Hk. destruct (getPublicKey_ok P HP _ Hk) as (pk & _ & Hget & _). eauto.
  - split; [apply Hthrow|].
    split; apply Hthrow; vm_compute; reflexivity.
Qed.

Lemma getPublicKey_lenient_witness :
  ((exists publicKey, getPublicKey Mock.prims key_lower = Ok publicKey) <->
   privateKeyVerify (hex_decode key_lower) = true) /\
  (privateKeyVerify (hex_decode key_lower) = false ->
   exists e, getPublicKey Mock.prims key_lower = Throw e) /\
  (exists e, getPublicKey Mock.prims "not-hex" = Throw e) /\
  (exists e, getPublicKey Mock.prims (zeros 32) = Throw e).
Proof. exact (getPublicKey_lenient Mock.prims mock_contract key_lower). Defined.

(** C7 fails: a valid signature followed by "zz" is malformed hex, yet
    [verify] returns [true] for it instead of throwing. *)
Lemma verify_malformed_counterexample : for_conforming (fun P =>
  exists publicKey sig,
    getPublicKey P key_lower = Ok publicKey /\ sign P key_lower hello = Ok sig /\
    hex_decode_strict (sig ++ "zz") = None /\
    verify P publicKey hello (sig ++ "zz") = Ok true).
Proof.
  intros P HP.
  assert (Hk : privateKeyVerify (hex_decode key_lower) = true)
    by (vm_compute; reflexivity).
  destruct (getPublicKey_ok P HP _ Hk) as (pk & Hpk & Hget & _).
  destruct (sign_ok P HP _ hello Hk) as (so & Hso & Hsign & _).
  exists (hex_encode pk), (hex_encode (signature so)).
  split; [exact Hget|]. split; [exact Hsign|]. split.
  - unfold hex_decode_strict. now rewrite is_hex_app, andb_false_r.
  - unfold verify. rewrite message_hash_raw, hex_decode_encode_app, hex_decode_encode.
    cbn [hex_decode]. rewrite app_nil_r.
    exact (verify_sign P HP _ _ _ _ (sha256_length P HP _) Hpk Hso).
Qed.

(** C7, as amended: [verify] does no validation of its own.  It returns
    the library's verdict on the leniently decoded public key and
    signature, so strings with the same decodable prefix give the same
    result, and it throws the library's error when the decoded signature is
    not 64 bytes or the decoded public key is neither 33 nor 65 bytes. *)
Theorem verify_lenient (P : primitives) (HP : secp256k1_contract P)
  (publicKey : string) (message : jsstring) (sig : string) :
  verify P publicKey message sig
    = ecdsa_verify P (sha256 P (utf8_encode message)) (hex_decode sig)
        (hex_decode publicKey) /\
  (length (hex_decode sig) <> 64%nat ->
   exists e, verify P publicKey message sig = Throw e) /\
  (length (hex_decode publicKey) <> 33%nat -> length (hex_decode publicKey) <> 65%nat ->
   exists e, verify P publicKey message sig = Throw e).
Proof.
  assert (Hv : verify P publicKey message sig
               = ecdsa_verify P (sha256 P (utf8_encode message)) (hex_decode sig)
                   (hex_decode publicKey))
    by (unfold verify; now rewrite message_hash_raw).
  rewrite Hv. split; [reflexivity|]. split.
  - apply verify_signature_length. exact HP.
  - apply verify_public_key_length. exact HP.
Qed.

Lemma verify_lenient_witness :
  verify Mock.prims "02zz" hello "00"
    = ecdsa_verify Mock.prims (sha256 Mock.prims (utf8_encode hello)) (hex_decode "00")
        (hex_decode "02zz") /\
  (length (hex_decode "00") <> 64%nat ->
   exists e, verify Mock.prims "02zz" hello "00" = Throw e) /\
  (length (hex_decode "02zz") <> 33%nat -> length (hex_decode "02zz") <> 65%nat ->
   exists e, verify Mock.prims "02zz" hello "00" = Throw e).
Proof. exact (verify_lenient Mock.prims mock_contract "02zz" hello "00"). Defined.

(** ** Further properties of the module *)

(** The loop returns the hex of a draw the library accepted. *)
Lemma createPrivateKey_accepted (draws : list (list byte)) (privateKey : string)
  (rest : list (list byte)) :
  createPrivateKey draws = Some (privateKey, rest) ->
  exists privKey, privateKey = hex_encode privKey /\ privateKeyVerify privKey = true.
Proof.
  induction draws as [|d draws IH]; [discriminate|].
  cbn. destruct (privateKeyVerify d) eqn:Hd; [|exact IH].
  intros H. injection H as <- _. eauto.
Qed.

(** [createPrivateKey] returns the first draw [privateKeyVerify] accepts,
    after rejecting every draw before it, and leaves the draws after it
    unused. *)
Theorem createPrivateKey_first_accepted (draws : list (list byte))
  (privateKey : string) (rest : list (list byte)) :
  createPrivateKey draws = Some (privateKey, rest) <->
  exists rejected privKey,
    draws = rejected ++ privKey :: rest /\
    Forall (fun d => privateKeyVerify d = false) rejected /\
    privateKeyVerify privKey = true /\ privateKey = hex_encode privKey.
Proof.
  split.
  - induction draws as [|d draws IH]; [discriminate|].
    cbn. destruct (privateKeyVerify d) eqn:Hd.
    + intros H. injection H as <- <-. exists [], d. auto.
    + intros H. destruct (IH H) as (rejected & privKey & -> & Hrej & Hk & ->).
      exists (d :: rejected), privKey. auto.
  - intros (rejected & privKey & -> & Hrej & Hk & ->).
    induction Hrej as [|d rejected Hd _ IH]; cbn.
    + now rewrite Hk.
    + now rewrite Hd.
Qed.

(** The loop does not return while every draw is rejected: [createPrivateKey]
    is still running at the end of the draws exactly when none of them
    passes [privateKeyVerify]. *)
Theorem createPrivateKey_running (draws : list (list byte)) :
  createPrivateKey draws = None <->
  Forall (fun d => privateKeyVerify d = false) draws.
Proof.
  induction draws as [|d draws IH]; cbn.
  - split; auto.
  - destruct (privateKeyVerify d) eqn:Hd.
    + split; [discriminate|]. intros H. inversion H; congruence.
    + rewrite IH. split; [auto|]. intros H. now inversion H.
Qed.

(** A key made by [createPrivateKey] works with the rest of the module:
    [getPublicKey] returns a compressed key for it, and a signature made
    with it verifies under that key for every message. *)
Theorem createPrivateKey_usable (P : primitives) (HP : secp256k1_contract P)
  (draws : list (list byte)) (privateKey : string) (rest : list (list byte))
  (message : jsstring)
  (Hrun : createPrivateKey draws = Some (privateKey, rest)) :
  (exists publicKey, getPublicKey P privateKey = Ok publicKey /\
     String.length publicKey = 66%nat) /\
  verify_signed P privateKey privateKey message message = Ok true.
Proof.
  destruct (createPrivateKey_accepted _ _ _ Hrun) as (privKey & -> & Hk).
  assert (Hk' : privateKeyVerify (hex_decode (hex_encode privKey)) = true)
    by now rewrite hex_decode_encode.
  split.
  - destruct (getPublicKey_ok P HP _ Hk') as (pk & _ & Hget & Hlen & _).
    exists (hex_encode pk). rewrite hex_encode_length, Hlen. auto.
  - destruct (verify_signed_result P HP _ _ message message Hk' Hk')
      as (b & Hb & Ht).
    rewrite Hb, Ht; reflexivity.
Qed.

Lemma createPrivateKey_usable_witness :
  createPrivateKey [repeat Byte.xff 32; key_bytes] = Some (key_lower, []) /\
  (exists publicKey, getPublicKey Mock.prims key_lower = Ok publicKey /\
     String.length publicKey = 66%nat) /\
  verify_signed Mock.prims key_lower key_lower hello hello = Ok true.
Proof.
  split; [vm_compute; reflexivity|].
  apply (createPrivateKey_usable Mock.prims mock_contract
           [repeat Byte.xff 32; key_bytes] key_lower [] hello).
  vm_compute. reflexivity.
Defined.

(** [sign] accepts exactly the key strings [getPublicKey] accepts, whatever
    the message (the empty one included): it returns a signature when the
    leniently decoded key passes [privateKeyVerify], and otherwise throws
    the library's error. *)
Theorem sign_accepts (P : primitives) (HP : secp256k1_contract P)
  (privateKey : string) (message : jsstring) :
  ((exists sig, sign P privateKey message = Ok sig) <->
   privateKeyVerify (hex_decode privateKey) = true) /\
  ((exists sig, sign P privateKey message = Ok sig) <->
   (exists publicKey, getPublicKey P privateKey = Ok publicKey)) /\
  (privateKeyVerify (hex_decode privateKey) = false ->
   exists e, sign P privateKey message = Throw e).
Proof.
  assert (Hthrow : privateKeyVerify (hex_decode privateKey) = false ->
                   exists e, sign P privateKey message = Throw e).
  { intros Hk.
    destruct (sign_invalid P HP (message_hash P message) _ (or_intror Hk)) as [e He].
    exists e. unfold sign. now rewrite He. }
  assert (Hsign : (exists sig, sign P privateKey message = Ok sig) <->
                  privateKeyVerify (hex_decode privateKey) = true).
  { split.
    - intros [sig Hs]. destruct (privateKeyVerify (hex_decode privateKey)) eqn:Hk;
        [reflexivity|].
      destruct (Hthrow eq_refl) as [e He]. congruence.
    - intros Hk. destruct (sign_ok P HP _ message Hk) as (so & _ & Hs & _). eauto. }
  split; [exact Hsign|]. split; [|exact Hthrow].
  rewrite Hsign. split.
  - intros Hk. destruct (getPublicKey_ok P HP _ Hk) as (pk & _ & Hget & _). eauto.
  - intros [publicKey Hget].
    destruct (privateKeyVerify (hex_decode privateKey)) eqn:Hk; [reflexivity|].
    destruct (publicKeyCreate_invalid P HP _ Hk) as [e He].
    unfold getPublicKey in Hget. rewrite He in Hget. discriminate.
Qed.

Lemma sign_accepts_witness :
  ((exists sig, sign Mock.prims (zeros 32) [] = Ok sig) <->
   privateKeyVerify (hex_decode (zeros 32)) = true) /\
  ((exists sig, sign Mock.prims (zeros 32) [] = Ok sig) <->
   (exists publicKey, getPublicKey Mock.prims (zeros 32) = Ok publicKey)) /\
  (privateKeyVerify (hex_decode (zeros 32)) = false ->
   exists e, sign Mock.prims (zeros 32) [] = Throw e).
Proof. exact (sign_accepts Mock.prims mock_contract (zeros 32) []). Defined.
